(** * Client-side session state of the ticket assistant front end

    Shallow embedding of the two stateful handlers of the Next.js client:
    - [sendMessage] of [ConversationPage] (src/src/pages/index.tsx),
    - [fetchSummary] and [saveRecentSearch] of [SummaryPage]
      (src/src/pages/_document.tsx).

    JavaScript values received from the backend are modelled as JSON
    values; property reads, truthiness, [||] and template-literal string
    conversion are written out as the JavaScript runtime performs them.
    The awaited [fetch] is an explicit reply argument; the clock reads
    ([Date.now()], [new Date()]) are explicit arguments, one per read. *)

From Stdlib Require Import String Ascii List ZArith Bool Lia.
From Stdlib Require Import DecimalString Permutation.
From Stdlib Require Decimal DecimalPos DecimalZ.
Import ListNotations.
Open Scope string_scope.
Set Warnings "-register-all".

(** ** JavaScript values *)

Module Js.

(** JSON values as produced by [response.json()]; numbers are integral
    and below 1e21 in magnitude, where [String(n)] is the plain decimal
    numeral (larger ones, printed in exponent form, are not modelled). *)
Inductive json : Type :=
| JNull
| JBool (b : bool)
| JNum (n : Z)
| JStr (s : string)
| JArr (l : list json)
| JObj (fields : list (string * json)).

(** Exceptions raised inside the [try] blocks. *)
Inductive js_error : Type :=
| NetworkError          (* [fetch] rejects: host unreachable *)
| HttpError (status : Z) (* [throw new Error(`HTTP error! status: ...`)] *)
| SyntaxError           (* [response.json()] rejects: body is not JSON *)
| TypeError.            (* property read on [null] *)

Inductive result (A : Type) : Type :=
| Ok (a : A)
| Throw (e : js_error).
Arguments Ok {A} a.
Arguments Throw {A} e.

(** [JSON.parse] keeps the last of duplicated keys. *)
Fixpoint assoc_last (fs : list (string * json)) (p : string) : option json :=
  match fs with
  | [] => None
  | (k, v) :: t =>
      match assoc_last t p with
      | Some w => Some w
      | None => if String.eqb k p then Some v else None
      end
  end.

(** Own data property [v.p]; [None] is [undefined].  The names read by the
    client ([response], [success], [message], [identifier], ...) are not
    inherited properties of any JSON value. *)
Definition own_prop (v : json) (p : string) : option json :=
  match v with
  | JObj fs => assoc_last fs p
  | _ => None
  end.

(** [v.p]: reading a property of [null] throws a [TypeError]. *)
Definition get_prop (v : json) (p : string) : result (option json) :=
  match v with
  | JNull => Throw TypeError
  | _ => Ok (own_prop v p)
  end.

(** JavaScript truthiness of a possibly [undefined] value. *)
Definition truthy (o : option json) : bool :=
  match o with
  | None => false
  | Some JNull => false
  | Some (JBool b) => b
  | Some (JNum n) => negb (Z.eqb n 0)
  | Some (JStr s) => negb (String.eqb s EmptyString)
  | Some (JArr _) => true
  | Some (JObj _) => true
  end.

(** [a || d]. *)
Definition js_or (a : option json) (d : json) : json :=
  match a with
  | Some v => if truthy a then v else d
  | None => d
  end.

Definition string_of_Z (n : Z) : string :=
  NilZero.string_of_int (Z.to_int n).

(** [String(v)] as used by template literals. *)
Fixpoint to_string (v : json) : string :=
  match v with
  | JNull => "null"
  | JBool true => "true"
  | JBool false => "false"
  | JNum n => string_of_Z n
  | JStr s => s
  | JArr l =>
      (fix join (l : list json) : string :=
         match l with
         | [] => EmptyString
         | [x] => match x with JNull => EmptyString | _ => to_string x end
         | x :: t =>
             (match x with JNull => EmptyString | _ => to_string x end)
               ++ "," ++ join t
         end) l
  | JObj _ => "[object Object]"
  end.

Definition template (o : option json) : string :=
  match o with
  | None => "undefined"
  | Some v => to_string v
  end.

(** Strings are held as their UTF-8 encoding, as the string literals of
    this file are; a JavaScript string with an unpaired surrogate has no
    such encoding and is not represented. *)
Definition byte (n : Z) : ascii := ascii_of_nat (Z.to_nat n).

(** UTF-8 encoding of a code point. *)
Definition utf8 (cp : Z) : list ascii :=
  if Z.ltb cp 0x80 then [byte cp]
  else if Z.ltb cp 0x800 then
    [byte (0xC0 + cp / 64); byte (0x80 + cp mod 64)]
  else if Z.ltb cp 0x10000 then
    [byte (0xE0 + cp / 4096); byte (0x80 + (cp / 64) mod 64);
     byte (0x80 + cp mod 64)]
  else
    [byte (0xF0 + cp / 262144); byte (0x80 + (cp / 4096) mod 64);
     byte (0x80 + (cp / 64) mod 64); byte (0x80 + cp mod 64)].

(** The code points [String.prototype.trim] removes: ECMAScript's
    [WhiteSpace] (TAB, VT, FF, ZWNBSP and the [Zs] space separators) and
    [LineTerminator] (LF, CR, LS, PS). *)
Definition js_ws : list Z :=
  [ 0x9; 0xB; 0xC; 0xFEFF;
    0x20; 0xA0; 0x1680; 0x2000; 0x2001; 0x2002; 0x2003; 0x2004; 0x2005;
    0x2006; 0x2007; 0x2008; 0x2009; 0x200A; 0x202F; 0x205F; 0x3000;
    0xA; 0xD; 0x2028; 0x2029 ]%Z.

Definition ws_tokens : list (list ascii) := map utf8 js_ws.

Fixpoint is_prefix (p l : list ascii) : bool :=
  match p, l with
  | [], _ => true
  | a :: p', b :: l' => Ascii.eqb a b && is_prefix p' l'
  | _ :: _, [] => false
  end.

(** The rest of [l] after one leading token of [toks], if it has one. *)
Fixpoint drop_token (toks : list (list ascii)) (l : list ascii)
  : option (list ascii) :=
  match toks with
  | [] => None
  | t :: ts => if is_prefix t l then Some (skipn (length t) l)
               else drop_token ts l
  end.

(** Leading tokens removed, at most [n] of them. *)
Fixpoint strip_fuel (toks : list (list ascii)) (n : nat) (l : list ascii)
  : list ascii :=
  match n with
  | O => l
  | S n' => match drop_token toks l with
            | Some r => strip_fuel toks n' r
            | None => l
            end
  end.

(** Every token is non-empty, so [length l] removals suffice. *)
Definition strip (toks : list (list ascii)) (l : list ascii) : list ascii :=
  strip_fuel toks (length l) l.

Definition trim_start_list (l : list ascii) : list ascii := strip ws_tokens l.

Definition trim_end_list (l : list ascii) : list ascii :=
  rev (strip (map (@rev ascii) ws_tokens) (rev l)).

(** [String.prototype.trim]. *)
Definition trim (s : string) : string :=
  string_of_list_ascii
    (trim_end_list (trim_start_list (list_ascii_of_string s))).

(** Text that starts, or ends, with a whitespace code point. *)
Definition leading_ws (l : list ascii) : Prop :=
  exists t r, In t ws_tokens /\ l = (t ++ r)%list.

Definition trailing_ws (l : list ascii) : Prop :=
  exists t r, In t ws_tokens /\ l = (r ++ t)%list.

(** Empty or made of whitespace code points only. *)
Definition whitespace_only (s : string) : Prop :=
  exists ts, Forall (fun t => In t ws_tokens) ts /\
             list_ascii_of_string s = concat ts.

Definition nl : string := String (ascii_of_nat 10) EmptyString.
Definition dq : string := String (ascii_of_nat 34) EmptyString.
Definition quoted (s : string) : string := dq ++ s ++ dq.

Fixpoint lines (l : list string) : string :=
  match l with
  | [] => EmptyString
  | [x] => x
  | x :: t => x ++ nl ++ lines t
  end.

End Js.

Import Js.

(** ** ConversationPage (src/src/pages/index.tsx) *)

Module Chat.
Local Open Scope Z_scope.
Local Open Scope string_scope.

Inductive sender : Type := User | Ai.

(** [interface Message]; the optional [isLoading] is [false] when absent.
    [content] holds the runtime value stored there: the user's text, or
    whatever [data.response || ...] evaluated to. *)
Record Message : Type := mkMessage {
  id : string;
  content : json;
  msg_sender : sender;
  timestamp : Z;
  isLoading : bool
}.

(** Component state: [messages], [inputValue], [isLoading]. *)
Record state : Type := mkState {
  messages : list Message;
  inputValue : string;
  loading : bool
}.

Definition SESSION_ID : string := "super-ai-chat-session".
Definition API_BASE_URL : string := "http://localhost:3002".

(** Body of [POST /chat]. *)
Record chat_request : Type := mkRequest {
  req_url : string;
  req_message : string;
  req_sessionId : string
}.

(** How the awaited [fetch] settles: it rejects, or it yields a response
    with a status and a body that [response.json()] parses ([Some]) or
    not ([None]). *)
Inductive chat_reply : Type :=
| ChatNetworkFailure
| ChatResponse (status : Z) (body : option json).

(** [response.ok]. *)
Definition ok (status : Z) : bool := Z.leb 200 status && Z.leb status 299.

Definition welcome : string :=
  lines
    [ "🧠 **Welcome to Ticket AI!**"; EmptyString;
      "I'm your intelligent ticket database assistant. I can help you with:";
      EmptyString;
      "🔍 **Smart Queries**";
      "• " ++ quoted "list all ticket IDs" ++ " - Get every ticket identifier";
      "• " ++ quoted "find tickets from john@email.com" ++ " - Search by customer";
      "• " ++ quoted "show open tickets" ++ " - Filter by status";
      EmptyString;
      "📊 **Database Insights**";
      "• " ++ quoted "explain how my data structure works" ++ " - Complete overview";
      "• " ++ quoted "what is a ticketID" ++ " - Field explanations";
      EmptyString;
      "🔄 **Conversation Memory**";
      "• " ++ quoted "see more" ++ " - Continue from previous results";
      "• I remember our conversation context!";
      EmptyString;
      "Just ask me anything naturally. What would you like to explore?" ].

Definition sorry_fallback : string :=
  "Sorry, I encountered an issue processing your request.".

Definition connection_error : string :=
  lines
    [ "❌ **Connection Error**"; EmptyString;
      "I couldn't connect to the Super AI backend. Please make sure:";
      EmptyString;
      "• The backend server is running on `localhost:3002`";
      "• Run `npm run dev` in your backend directory";
      "• Check the console for any errors";
      EmptyString;
      "Try your message again once the backend is ready!" ].

(** The mount effect: its closure sees the first render's empty
    [messages], so it sets the transcript to the welcome turn. *)
Definition mount_effect (now : Z) (s : state) : state :=
  {| messages := [ {| id := "1"; content := JStr welcome; msg_sender := Ai;
                      timestamp := now; isLoading := false |} ];
     inputValue := inputValue s; loading := loading s |}.

(** [setInputValue] from the textarea or a suggestion button. *)
Definition set_input (v : string) (s : state) : state :=
  {| messages := messages s; inputValue := v; loading := loading s |}.

(** The clock reads of one call of [sendMessage], in milliseconds:
    [Date.now()] and [new Date()] for [userMessage] (lines 65, 68) and for
    [loadingMessage] (lines 72, 75), then, after the [await], for the
    reply or error turn (lines 101, 104 or 113, 116). *)
Record clock : Type := mkClock {
  now_user : Z; date_user : Z;
  now_loading : Z; date_loading : Z;
  now_reply : Z; date_reply : Z
}.

(** [sendMessage] up to the [await fetch]: the early return, the two
    appended turns, [setInputValue('')], [setIsLoading(true)], and the
    request it issues.  [None] is the early return. *)
Definition send_begin (c : clock) (s : state) : option (state * chat_request) :=
  if String.eqb (trim (inputValue s)) EmptyString || loading s then None
  else
    let userMessage :=
      {| id := string_of_Z (now_user c); content := JStr (trim (inputValue s));
         msg_sender := User; timestamp := date_user c; isLoading := false |} in
    let loadingMessage :=
      {| id := string_of_Z (now_loading c + 1); content := JStr EmptyString;
         msg_sender := Ai; timestamp := date_loading c; isLoading := true |} in
    Some ({| messages := messages s ++ [userMessage; loadingMessage];
             inputValue := EmptyString; loading := true |},
          {| req_url := API_BASE_URL ++ "/chat";
             req_message := trim (inputValue s);
             req_sessionId := SESSION_ID |}).

(** The [try] block after the request: the content of [aiMessage], or the
    exception that reaches [catch]. *)
Definition try_reply (r : chat_reply) : result json :=
  match r with
  | ChatNetworkFailure => Throw NetworkError
  | ChatResponse status body =>
      if negb (ok status) then Throw (HttpError status)
      else
        match body with
        | None => Throw SyntaxError
        | Some data =>
            match get_prop data "response" with
            | Throw e => Throw e
            | Ok r => Ok (js_or r (JStr sorry_fallback))
            end
        end
  end.

(** [setMessages(prev => prev.slice(0, -1).concat([m]))] then, in
    [finally], [setIsLoading(false)]. *)
Definition reconcile (c : clock) (r : chat_reply) (s : state) : state :=
  let v := match try_reply r with
           | Ok v => v
           | Throw _ => JStr connection_error
           end in
  let m := {| id := string_of_Z (now_reply c + 2); content := v;
              msg_sender := Ai; timestamp := date_reply c; isLoading := false |} in
  {| messages := removelast (messages s) ++ [m];
     inputValue := inputValue s; loading := false |}.

(** One complete call of [sendMessage] whose [fetch] settles with [r]. *)
Definition sendMessage (c : clock) (r : chat_reply) (s : state) : state :=
  match send_begin c s with
  | None => s
  | Some (s1, _) => reconcile c r s1
  end.

Definition init : state :=
  {| messages := []; inputValue := EmptyString; loading := false |}.

(** Events of the page.  The textarea and the suggestion buttons are
    [disabled={isLoading}]; [sendMessage] itself checks [isLoading]; the
    reconciliation runs only for the request in flight.  The mount effect
    is allowed at any point, which only adds behaviours. *)
Inductive step : state -> state -> Prop :=
| StepMount now s : step s (mount_effect now s)
| StepInput v s : loading s = false -> step s (set_input v s)
| StepSend c s s' req : send_begin c s = Some (s', req) -> step s s'
| StepSettle c r s : loading s = true -> step s (reconcile c r s).

Inductive reachable : state -> Prop :=
| reach_init : reachable init
| reach_step s s' : reachable s -> step s s' -> reachable s'.

Definition count_pending (l : list Message) : nat :=
  length (filter isLoading l).

End Chat.

(** ** SummaryPage (src/src/pages/_document.tsx) *)

Module Lookup.
Local Open Scope Z_scope.
Local Open Scope string_scope.

(** Component state: [summaryData] ([null] is [JNull]), [isLoading],
    [recentSearches], together with the [recent-searches] entry of
    [localStorage] (the JSON text of a string list; [None] when unset). *)
Record state : Type := mkState {
  summaryData : json;
  loading : bool;
  recentSearches : list string;
  storage : option (list string)
}.

Definition STORAGE_KEY : string := "recent-searches".

(** [GET ${API_BASE_URL}/summarize/${encodeURIComponent(identifier.trim())}],
    kept as the trimmed identifier. *)
Record summary_request : Type := mkRequest { req_identifier : string }.

(** How the awaited [fetch] settles: rejection, or a response with a
    status and a body that [response.json()] parses or not.  The status is
    never read by [fetchSummary]. *)
Inductive lookup_reply : Type :=
| LookupNetworkFailure
| LookupResponse (status : Z) (body : option json).

(** [[query, ...recentSearches.filter(s => s !== query)].slice(0, 5)]. *)
Definition save_list (query : string) (recent : list string) : list string :=
  firstn 5 (query :: filter (fun x => negb (String.eqb x query)) recent).

(** [saveRecentSearch]: state update and [localStorage.setItem]. *)
Definition saveRecentSearch (query : string) (s : state) : state :=
  let updated := save_list query (recentSearches s) in
  {| summaryData := summaryData s; loading := loading s;
     recentSearches := updated; storage := Some updated |}.

Definition set_summary (d : json) (s : state) : state :=
  {| summaryData := d; loading := loading s;
     recentSearches := recentSearches s; storage := storage s |}.

Definition set_loading (b : bool) (s : state) : state :=
  {| summaryData := summaryData s; loading := b;
     recentSearches := recentSearches s; storage := storage s |}.

Definition connection_message : string :=
  "Could not connect to the backend server. Make sure it's running on localhost:3002".

(** The object stored by the [catch] block; [now] is
    [new Date().toISOString()]. *)
Definition error_record (identifier : string) (now : string) : json :=
  JObj [ ("success", JBool false);
         ("identifier", JStr identifier);
         ("summary", JStr EmptyString);
         ("conversationLength", JNum 0);
         ("attachmentCount", JNum 0);
         ("timestamp", JStr now);
         ("error", JStr "Connection failed");
         ("message", JStr connection_message) ].

(** [fetchSummary] up to the [await fetch]: the early return,
    [setIsLoading(true)], [setSummaryData(null)] and the request. *)
Definition lookup_begin (identifier : string) (s : state)
  : option (state * summary_request) :=
  if String.eqb (trim identifier) EmptyString then None
  else Some (set_summary JNull (set_loading true s),
             {| req_identifier := trim identifier |}).

(** The [try] block after the request: the state reached and the
    exception, if any, that reaches [catch]. *)
Definition try_reply (identifier : string) (r : lookup_reply) (s : state)
  : state * option js_error :=
  match r with
  | LookupNetworkFailure => (s, Some NetworkError)
  | LookupResponse _ None => (s, Some SyntaxError)
  | LookupResponse _ (Some data) =>
      let s2 := set_summary data s in
      match get_prop data "success" with
      | Throw e => (s2, Some e)
      | Ok v =>
          if truthy v then (saveRecentSearch (trim identifier) s2, None)
          else (s2, None)
      end
  end.

(** [catch] and [finally]. *)
Definition settle (now : string) (identifier : string) (r : lookup_reply)
  (s : state) : state :=
  let '(s2, err) := try_reply identifier r s in
  let s3 := match err with
            | None => s2
            | Some _ => set_summary (error_record (trim identifier) now) s2
            end in
  set_loading false s3.

(** One complete call of [fetchSummary(identifier)] whose [fetch] settles
    with [r]. *)
Definition fetchSummary (now : string) (identifier : string) (r : lookup_reply)
  (s : state) : state :=
  match lookup_begin identifier s with
  | None => s
  | Some (s1, _) => settle now identifier r s1
  end.

(** The mount effect reading [localStorage]. *)
Definition load_recent (s : state) : state :=
  match storage s with
  | Some l => {| summaryData := summaryData s; loading := loading s;
                 recentSearches := l; storage := storage s |}
  | None => s
  end.

(** What the results section renders from the state. *)
Inductive view : Type :=
| LoadingView
| EmptyView
| SuccessView (ticket timestamp summary conversationLength attachmentCount
               : option json)
| NotFoundView (message : json).

Definition render (s : state) : view :=
  if loading s then LoadingView
  else if negb (truthy (Some (summaryData s))) then EmptyView
  else
    let d := summaryData s in
    if truthy (own_prop d "success") then
      SuccessView (own_prop d "ticket") (own_prop d "timestamp")
        (own_prop d "summary") (own_prop d "conversationLength")
        (own_prop d "attachmentCount")
    else
      NotFoundView
        (js_or (own_prop d "message")
           (JStr ("No ticket found with identifier: "
                  ++ template (own_prop d "identifier")))).

Definition init (stored : option (list string)) : state :=
  {| summaryData := JNull; loading := false; recentSearches := [];
     storage := stored |}.

(** Page loads and lookups over the persisted log.  The search input and
    every button that starts a lookup are [disabled={isLoading}], so one
    lookup runs at a time and is taken as one event.  A reload keeps only
    [localStorage]; only [saveRecentSearch] writes the key. *)
Inductive step : state -> state -> Prop :=
| StepLoad s : step s (load_recent s)
| StepLookup now identifier r s :
    step s (fetchSummary now identifier r s)
| StepReload s : step s (init (storage s)).

Inductive reachable : state -> Prop :=
| reach_init : reachable (init None)
| reach_step s s' : reachable s -> step s s' -> reachable s'.

End Lookup.

(** * Properties *)

Module TrimFacts.
Local Open Scope list_scope.

Lemma is_prefix_spec p l : is_prefix p l = true <-> exists r, l = p ++ r.
Proof.
  revert l; induction p as [|a p IH]; intros l; simpl.
  - split; [intros _; exists l; reflexivity|reflexivity].
  - destruct l as [|b l].
    + split; [discriminate|intros [r E]; discriminate E].
    + destruct (Ascii.eqb_spec a b) as [<-|N]; simpl.
      * rewrite IH. split; intros [r E]; exists r;
          [rewrite E; reflexivity|injection E as E; exact E].
      * split; [discriminate|intros [r E]; injection E as E _; congruence].
Qed.

Lemma skipn_prefix (t r : list ascii) : skipn (length t) (t ++ r) = r.
Proof. induction t as [|a t IH]; [reflexivity|exact IH]. Qed.

Lemma drop_token_some toks l r :
  drop_token toks l = Some r -> exists t, In t toks /\ l = t ++ r.
Proof.
  induction toks as [|t ts IH]; simpl; [discriminate|].
  destruct (is_prefix t l) eqn:E.
  - intros H. injection H as <-. apply is_prefix_spec in E as [r' ->].
    exists t. split; [left; reflexivity|]. rewrite skipn_prefix. reflexivity.
  - intros H. destruct (IH H) as [u [Hu E']].
    exists u. split; [right; exact Hu|exact E'].
Qed.

Lemma drop_token_none toks l :
  drop_token toks l = None <-> ~ exists t r, In t toks /\ l = t ++ r.
Proof.
  induction toks as [|t ts IH]; simpl.
  - split; [intros _ [t [r [[] _]]]|reflexivity].
  - destruct (is_prefix t l) eqn:E.
    + split; [discriminate|]. intros N. exfalso. apply N.
      apply is_prefix_spec in E as [r ->]. exists t, r.
      split; [left; reflexivity|reflexivity].
    + rewrite IH. split.
      * intros N [u [r [[<-|Hu] Eu]]].
        -- rewrite Eu in E. assert (P : is_prefix t (t ++ r) = true)
             by (apply is_prefix_spec; exists r; reflexivity).
           congruence.
        -- apply N. exists u, r. split; [exact Hu|exact Eu].
      * intros N [u [r [Hu Eu]]]. apply N. exists u, r.
        split; [right; exact Hu|exact Eu].
Qed.

(** A token list where no token is empty and no token is a proper prefix
    of another, as the UTF-8 encodings of distinct code points are. *)
Definition token_set_ok (toks : list (list ascii)) : bool :=
  forallb (fun t => negb (Nat.eqb (length t) 0)) toks &&
  forallb (fun a => forallb (fun b =>
             negb (is_prefix a b) ||
             (if list_eq_dec ascii_dec a b then true else false)) toks) toks.

Section Strip.
Variable toks : list (list ascii).
Hypothesis Hok : token_set_ok toks = true.

Lemma tok_nonempty t : In t toks -> t <> [].
Proof.
  intros Ht ->. apply andb_true_iff in Hok as [H _].
  rewrite forallb_forall in H. specialize (H [] Ht). discriminate H.
Qed.

Lemma tok_prefix_free a b x y :
  In a toks -> In b toks -> a ++ x = b ++ y -> a = b.
Proof.
  intros Ha Hb E. apply andb_true_iff in Hok as [_ H].
  rewrite forallb_forall in H.
  assert (G : forall u v, In u toks -> In v toks ->
              is_prefix u v = true -> u = v).
  { intros u v Hu Hv P. specialize (H u Hu). rewrite forallb_forall in H.
    specialize (H v Hv). rewrite P in H. simpl in H.
    destruct (list_eq_dec ascii_dec u v); [assumption|discriminate]. }
  apply app_eq_app in E as [l [[E1 _]|[E1 _]]].
  - symmetry. apply G; [exact Hb|exact Ha|].
    apply is_prefix_spec. exists l. exact E1.
  - apply G; [exact Ha|exact Hb|]. apply is_prefix_spec. exists l. exact E1.
Qed.

Lemma drop_token_shorter l r :
  drop_token toks l = Some r -> (length r < length l)%nat.
Proof.
  intros H. destruct (drop_token_some toks l r H) as [t [Ht ->]].
  rewrite length_app. destruct t; [contradiction (tok_nonempty [] Ht); reflexivity|].
  simpl. lia.
Qed.

Lemma drop_token_app t r : In t toks -> drop_token toks (t ++ r) = Some r.
Proof.
  intros Ht. destruct (drop_token toks (t ++ r)) as [r'|] eqn:E.
  - destruct (drop_token_some toks _ _ E) as [u [Hu Eu]].
    pose proof (tok_prefix_free t u r r' Ht Hu Eu) as <-.
    apply app_inv_head in Eu. rewrite Eu. reflexivity.
  - exfalso. apply (proj1 (drop_token_none toks _) E).
    exists t, r. split; [exact Ht|reflexivity].
Qed.

Lemma strip_fuel_done n l :
  (length l <= n)%nat -> drop_token toks (strip_fuel toks n l) = None.
Proof.
  revert l; induction n as [|n IH]; intros l Hl; simpl.
  - destruct l; [|simpl in Hl; lia].
    apply drop_token_none. intros [t [r [Ht E]]].
    destruct t; [exact (tok_nonempty [] Ht eq_refl)|discriminate E].
  - destruct (drop_token toks l) as [r|] eqn:E; [|exact E].
    apply IH. pose proof (drop_token_shorter l r E). lia.
Qed.

Lemma strip_fuel_decomp n l :
  exists ts, Forall (fun t => In t toks) ts /\ l = concat ts ++ strip_fuel toks n l.
Proof.
  revert l; induction n as [|n IH]; intros l; simpl.
  - exists []. split; [constructor|reflexivity].
  - destruct (drop_token toks l) as [r|] eqn:E.
    + destruct (drop_token_some toks l r E) as [t [Ht ->]].
      destruct (IH r) as [ts [F Er]]. exists (t :: ts).
      split; [constructor; assumption|]. simpl. rewrite <- app_assoc, <- Er.
      reflexivity.
    + exists []. split; [constructor|reflexivity].
Qed.

Lemma strip_fuel_fix n l : drop_token toks l = None -> strip_fuel toks n l = l.
Proof. intros H. destruct n; simpl; [reflexivity|rewrite H; reflexivity]. Qed.

Lemma strip_fuel_concat n ts :
  Forall (fun t => In t toks) ts -> (length (concat ts) <= n)%nat ->
  strip_fuel toks n (concat ts) = [].
Proof.
  revert n; induction ts as [|t ts IH]; intros n F Hn; simpl.
  - apply strip_fuel_fix. apply drop_token_none. intros [t [r [Ht E]]].
    destruct t; [exact (tok_nonempty [] Ht eq_refl)|discriminate E].
  - inversion F as [|? ? Ht F']; subst.
    destruct n as [|n].
    + simpl in Hn. rewrite length_app in Hn.
      destruct t; [contradiction (tok_nonempty [] Ht); reflexivity|simpl in Hn; lia].
    + simpl. rewrite (drop_token_app t _ Ht). apply IH; [exact F'|].
      simpl in Hn. rewrite length_app in Hn.
      destruct t; [contradiction (tok_nonempty [] Ht); reflexivity|simpl in Hn; lia].
Qed.

Lemma strip_done l : drop_token toks (strip toks l) = None.
Proof. apply strip_fuel_done. lia. Qed.

Lemma strip_decomp l :
  exists ts, Forall (fun t => In t toks) ts /\ l = concat ts ++ strip toks l.
Proof. apply strip_fuel_decomp. Qed.

Lemma strip_fix l : drop_token toks l = None -> strip toks l = l.
Proof. apply strip_fuel_fix. Qed.

Lemma strip_concat ts :
  Forall (fun t => In t toks) ts -> strip toks (concat ts) = [].
Proof. intros F. apply strip_fuel_concat; [exact F|lia]. Qed.

End Strip.

Lemma ws_tokens_ok : token_set_ok ws_tokens = true.
Proof. vm_compute. reflexivity. Qed.

Lemma rev_ws_tokens_ok : token_set_ok (map (@rev ascii) ws_tokens) = true.
Proof. vm_compute. reflexivity. Qed.

Lemma in_rev_tokens t :
  In t (map (@rev ascii) ws_tokens) <-> In (rev t) ws_tokens.
Proof.
  rewrite in_map_iff. split.
  - intros [u [<- Hu]]. rewrite rev_involutive. exact Hu.
  - intros H. exists (rev t). split; [apply rev_involutive|exact H].
Qed.

Lemma rev_concat (ts : list (list ascii)) :
  rev (concat ts) = concat (rev (map (@rev ascii) ts)).
Proof.
  induction ts as [|t ts IH]; [reflexivity|]. simpl.
  rewrite rev_app_distr, IH, concat_app. simpl. rewrite app_nil_r. reflexivity.
Qed.

Lemma no_leading l :
  ~ leading_ws l <-> drop_token ws_tokens l = None.
Proof. rewrite drop_token_none. reflexivity. Qed.

Lemma no_trailing l :
  ~ trailing_ws l <-> drop_token (map (@rev ascii) ws_tokens) (rev l) = None.
Proof.
  rewrite drop_token_none. split.
  - intros N [t [r [Ht E]]]. apply N. exists (rev t), (rev r).
    split; [apply in_rev_tokens; exact Ht|].
    rewrite <- (rev_involutive l), E, rev_app_distr. reflexivity.
  - intros N [t [r [Ht E]]]. apply N. exists (rev t), (rev r).
    split; [apply in_rev_tokens; rewrite rev_involutive; exact Ht|].
    rewrite E, rev_app_distr. reflexivity.
Qed.

Lemma trim_start_ok l : ~ leading_ws (trim_start_list l).
Proof. apply no_leading. apply (strip_done _ ws_tokens_ok). Qed.

Lemma trim_start_fix l : ~ leading_ws l -> trim_start_list l = l.
Proof. intros H. apply (strip_fix _). apply no_leading. exact H. Qed.

Lemma trim_end_ok l : ~ trailing_ws (trim_end_list l).
Proof.
  apply no_trailing. unfold trim_end_list. rewrite rev_involutive.
  apply (strip_done _ rev_ws_tokens_ok).
Qed.

Lemma trim_end_fix l : ~ trailing_ws l -> trim_end_list l = l.
Proof.
  intros H. apply no_trailing in H. unfold trim_end_list.
  rewrite (strip_fix _ _ H). apply rev_involutive.
Qed.

(** Removing trailing whitespace keeps a prefix of the text. *)
Lemma trim_end_prefix l : exists p, l = trim_end_list l ++ p.
Proof.
  destruct (strip_decomp (map (@rev ascii) ws_tokens) (rev l)) as [ts [_ E]].
  exists (rev (concat ts)). unfold trim_end_list.
  rewrite <- rev_app_distr, <- E, rev_involutive. reflexivity.
Qed.

Lemma trim_end_keeps_start l : ~ leading_ws l -> ~ leading_ws (trim_end_list l).
Proof.
  intros N [t [r [Ht E]]]. apply N. destruct (trim_end_prefix l) as [p Ep].
  exists t, (r ++ p). split; [exact Ht|]. rewrite Ep, E, app_assoc. reflexivity.
Qed.

Lemma trim_as_list s :
  list_ascii_of_string (trim s)
  = trim_end_list (trim_start_list (list_ascii_of_string s)).
Proof. unfold trim. apply list_ascii_of_string_of_list_ascii. Qed.

Lemma list_ascii_inj s t :
  list_ascii_of_string s = list_ascii_of_string t -> s = t.
Proof.
  intros H. rewrite <- (string_of_list_ascii_of_string s),
    <- (string_of_list_ascii_of_string t), H. reflexivity.
Qed.

(** The trimmed text neither starts nor ends with whitespace. *)
Lemma trim_ends s :
  ~ leading_ws (list_ascii_of_string (trim s)) /\
  ~ trailing_ws (list_ascii_of_string (trim s)).
Proof.
  rewrite trim_as_list. split; [|apply trim_end_ok].
  apply trim_end_keeps_start, trim_start_ok.
Qed.

Lemma trim_idem s : trim (trim s) = trim s.
Proof.
  apply list_ascii_inj. rewrite (trim_as_list (trim s)).
  destruct (trim_ends s) as [A B].
  rewrite (trim_start_fix _ A), (trim_end_fix _ B). reflexivity.
Qed.

(** [trim] empties exactly the empty and whitespace-only strings. *)
Lemma trim_empty_iff s : trim s = EmptyString <-> whitespace_only s.
Proof.
  split.
  - intros H. apply (f_equal list_ascii_of_string) in H.
    rewrite trim_as_list in H.
    change (list_ascii_of_string EmptyString) with (@nil ascii) in H.
    set (x := trim_start_list (list_ascii_of_string s)) in H.
    destruct (strip_decomp ws_tokens (list_ascii_of_string s)) as [ts [F E]].
    fold (trim_start_list (list_ascii_of_string s)) in E. fold x in E.
    destruct (strip_decomp (map (@rev ascii) ws_tokens) (rev x)) as [us [G Ex]].
    unfold trim_end_list in H. apply (f_equal (@rev ascii)) in H.
    rewrite rev_involutive in H. change (rev (@nil ascii)) with (@nil ascii) in H.
    rewrite H, app_nil_r in Ex.
    exists (ts ++ rev (map (@rev ascii) us)). split.
    + apply Forall_app. split; [exact F|].
      apply Forall_rev. apply Forall_map. eapply Forall_impl; [|exact G].
      intros t Ht. apply in_rev_tokens. exact Ht.
    + rewrite concat_app, <- rev_concat, <- Ex, rev_involutive. exact E.
  - intros [ts [F E]]. apply list_ascii_inj. rewrite trim_as_list, E.
    unfold trim_start_list. rewrite (strip_concat _ ws_tokens_ok ts F).
    reflexivity.
Qed.

Lemma string_of_Z_inj a b : string_of_Z a = string_of_Z b -> a = b.
Proof.
  intros H. unfold string_of_Z in H.
  assert (Nn : forall n, Z.to_int n <> Decimal.Pos Decimal.Nil /\ Z.to_int n <> Decimal.Neg Decimal.Nil).
  { intros [|p|p]; simpl; split; try discriminate;
      intros E; injection E; apply DecimalPos.Unsigned.to_uint_nonnil. }
  destruct (Nn a) as [Ha1 Ha2], (Nn b) as [Hb1 Hb2].
  pose proof (NilZero.isi _ Ha1 Ha2) as Ia.
  pose proof (NilZero.isi _ Hb1 Hb2) as Ib.
  rewrite H, Ib in Ia. injection Ia as E.
  apply DecimalZ.to_int_inj. symmetry. exact E.
Qed.

End TrimFacts.

Module ChatFacts.
Import Chat.
Local Open Scope Z_scope.
Local Open Scope string_scope.
Local Open Scope list_scope.

Example welcome_not_pending :
  count_pending (messages (mount_effect 0 init)) = 0%nat.
Proof. reflexivity. Qed.

(** Content the pending turn is replaced with. *)
Definition reply_content (r : chat_reply) : json :=
  match try_reply r with
  | Ok c => c
  | Throw _ => JStr connection_error
  end.

Definition user_turn (c : clock) (s : state) : Message :=
  {| id := string_of_Z (now_user c); content := JStr (trim (inputValue s));
     msg_sender := User; timestamp := date_user c; isLoading := false |}.

Definition ai_turn (c : clock) (r : chat_reply) : Message :=
  {| id := string_of_Z (now_reply c + 2); content := reply_content r;
     msg_sender := Ai; timestamp := date_reply c; isLoading := false |}.

Lemma removelast_two {A} (l : list A) (a b : A) :
  removelast (l ++ [a; b]) = l ++ [a].
Proof.
  replace (l ++ [a; b]) with ((l ++ [a]) ++ [b])
    by (rewrite <- app_assoc; reflexivity).
  apply removelast_last.
Qed.

Lemma sendMessage_shape c r s :
  loading s = false -> trim (inputValue s) <> EmptyString ->
  sendMessage c r s
  = {| messages := messages s ++ [user_turn c s; ai_turn c r];
       inputValue := EmptyString; loading := false |}.
Proof.
  intros Hl Ht. unfold sendMessage, send_begin.
  rewrite Hl, orb_false_r.
  destruct (String.eqb_spec (trim (inputValue s)) EmptyString) as [E|_];
    [contradiction|].
  unfold reconcile; simpl. rewrite removelast_two, <- app_assoc.
  reflexivity.
Qed.

Lemma count_pending_app l m :
  count_pending (l ++ m) = (count_pending l + count_pending m)%nat.
Proof. unfold count_pending. rewrite filter_app, length_app. reflexivity. Qed.

Lemma count_pending_removelast l :
  (count_pending l <= count_pending (removelast l) + 1)%nat.
Proof.
  destruct l as [|x l]; [unfold count_pending; simpl; lia|].
  rewrite (app_removelast_last x (l := x :: l)) at 1 by discriminate.
  rewrite count_pending_app. unfold count_pending at 2. simpl.
  destruct (isLoading _); simpl; lia.
Qed.

(** Invariant of the page: with no request in flight nothing is pending;
    with one in flight only the last turn may be pending and the input
    box is empty. *)
Definition inv (s : state) : Prop :=
  (loading s = false -> count_pending (messages s) = 0%nat) /\
  (loading s = true ->
     count_pending (removelast (messages s)) = 0%nat /\
     inputValue s = EmptyString).

Lemma inv_step s s' : inv s -> step s s' -> inv s'.
Proof.
  intros [H0 H1] Hs. destruct Hs as [now s|v s Hl|now s s' req Hb|now r s Hl].
  - split; [intros _; reflexivity|].
    intros E. split; [reflexivity|exact (proj2 (H1 E))].
  - split; simpl; [exact H0|]. intros E. rewrite Hl in E. discriminate.
  - unfold send_begin in Hb.
    destruct (String.eqb (trim (inputValue s)) EmptyString || loading s)
      eqn:G; [discriminate|].
    apply orb_false_elim in G as [_ G].
    injection Hb as <- <-. split; simpl; [discriminate|]. intros _.
    rewrite removelast_two, count_pending_app, H0 by exact G.
    split; reflexivity.
  - destruct (H1 Hl) as [Hc _]. split; simpl; [|discriminate]. intros _.
    rewrite count_pending_app, Hc. unfold count_pending. reflexivity.
Qed.

Lemma inv_reachable s : reachable s -> inv s.
Proof.
  induction 1 as [|s s' _ IH Hs].
  - split; intros; [reflexivity|discriminate].
  - exact (inv_step s s' IH Hs).
Qed.

Lemma reachable_input_idle s :
  reachable s -> trim (inputValue s) <> EmptyString -> loading s = false.
Proof.
  intros R Ht. destruct (loading s) eqn:E; [|reflexivity].
  destruct (proj2 (inv_reachable s R) E) as [_ Hi].
  rewrite Hi in Ht. contradiction Ht. reflexivity.
Qed.

End ChatFacts.

Module ChatClaims.
Import Chat ChatFacts.
Local Open Scope Z_scope.
Local Open Scope string_scope.
Local Open Scope list_scope.

(** Replies on which [sendMessage] takes its [catch] branch before reading
    the payload: rejection, non-2xx status, body that is not JSON. *)
Inductive chat_failure : chat_reply -> Prop :=
| failure_network : chat_failure ChatNetworkFailure
| failure_status status body :
    ok status = false -> chat_failure (ChatResponse status body)
| failure_json status :
    ok status = true -> chat_failure (ChatResponse status None).

Definition typed_state : state := set_input "hello" (mount_effect 0 init).

(** Clock reads of one call: [1] before the [await], [2] after it. *)
Definition clk1 : clock :=
  {| now_user := 1; date_user := 1; now_loading := 1; date_loading := 1;
     now_reply := 2; date_reply := 2 |}.

Definition busy_state : state :=
  match send_begin clk1 typed_state with
  | Some (s, _) => s
  | None => init
  end.

Definition no_turn : Message :=
  {| id := EmptyString; content := JNull; msg_sender := User; timestamp := 0;
     isLoading := false |}.

Lemma typed_state_reachable : reachable typed_state.
Proof.
  eapply reach_step; [|apply StepInput; reflexivity].
  eapply reach_step; [apply reach_init|apply (StepMount 0)].
Qed.

(** C1: in every reachable state of the page the transcript holds at most
    one turn with [isLoading = true]. *)
Theorem at_most_one_pending (s : state) :
  reachable s -> (count_pending (messages s) <= 1)%nat.
Proof.
  intros R. destruct (inv_reachable s R) as [H0 H1].
  destruct (loading s) eqn:E.
  - pose proof (count_pending_removelast (messages s)).
    destruct (H1 eq_refl) as [Hc _]. lia.
  - rewrite (H0 eq_refl). lia.
Qed.

Lemma at_most_one_pending_witness :
  reachable busy_state /\ (count_pending (messages busy_state) <= 1)%nat.
Proof.
  assert (R : reachable busy_state).
  { eapply reach_step; [exact typed_state_reachable|].
    eapply (StepSend clk1). reflexivity. }
  split; [exact R|]. apply (at_most_one_pending busy_state R).
Defined.

(** C2: from any reachable state whose input trims to a non-empty text,
    one call of [sendMessage] first appends a user turn and a pending
    assistant turn, then replaces the pending turn by a resolved one: the
    transcript grows by exactly two turns, whatever the reply. *)
Theorem sendMessage_appends_two (c : clock) (r : chat_reply) (s : state) :
  reachable s -> trim (inputValue s) <> EmptyString ->
  length (messages (sendMessage c r s)) = (length (messages s) + 2)%nat /\
  exists u p a s1 req,
    send_begin c s = Some (s1, req) /\
    messages s1 = messages s ++ [u; p] /\ isLoading p = true /\
    msg_sender p = Ai /\
    sendMessage c r s = reconcile c r s1 /\
    messages (sendMessage c r s) = messages s ++ [u; a] /\
    msg_sender u = User /\ content u = JStr (trim (inputValue s)) /\
    isLoading u = false /\ msg_sender a = Ai /\ isLoading a = false.
Proof.
  intros R Ht. pose proof (reachable_input_idle s R Ht) as Hl.
  rewrite (sendMessage_shape c r s Hl Ht). simpl.
  split; [rewrite length_app; reflexivity|].
  unfold send_begin. rewrite Hl, orb_false_r.
  destruct (String.eqb_spec (trim (inputValue s)) EmptyString) as [E|_];
    [contradiction|].
  do 5 eexists. split; [reflexivity|]. simpl.
  split; [reflexivity|]. split; [reflexivity|]. split; [reflexivity|].
  split; [unfold reconcile; simpl; rewrite removelast_two, <- app_assoc;
          reflexivity|].
  split; [reflexivity|].
  repeat split.
Qed.

Lemma sendMessage_appends_two_witness :
  reachable typed_state /\ trim (inputValue typed_state) <> EmptyString /\
  length (messages (sendMessage clk1 ChatNetworkFailure typed_state)) = 3%nat.
Proof.
  assert (Ht : trim (inputValue typed_state) <> EmptyString) by discriminate.
  split; [exact typed_state_reachable|]. split; [exact Ht|].
  exact (proj1 (sendMessage_appends_two clk1 ChatNetworkFailure typed_state
                  typed_state_reachable Ht)).
Defined.

(** C3 (refuted as stated): a 2xx reply whose [response] is the empty
    string yields the fallback text, not the field; a 2xx reply whose body
    is JSON [null] yields the connection-error turn. *)
Lemma ok_reply_content_counterexample :
  content (last (messages (sendMessage clk1
     (ChatResponse 200 (Some (JObj [("response", JStr EmptyString)])))
     typed_state)) no_turn) = JStr sorry_fallback /\
  JStr sorry_fallback <> JStr EmptyString /\
  content (last (messages (sendMessage clk1 (ChatResponse 200 (Some JNull))
     typed_state)) no_turn) = JStr connection_error.
Proof. split; [reflexivity|]. split; [discriminate|reflexivity]. Qed.

(** C3 (amended): on a 2xx reply whose body parses to [data], the pending
    turn, last in the transcript, is replaced by a non-pending assistant
    turn whose content is [data.response] when that value is truthy, the
    fixed fallback text when it is absent or falsy, and the
    connection-error text when [data] is [null]. *)
Theorem sendMessage_ok_reply (c : clock) (status : Z) (data : json) (s : state) :
  loading s = false -> trim (inputValue s) <> EmptyString -> ok status = true ->
  messages (sendMessage c (ChatResponse status (Some data)) s)
  = messages s ++
    [user_turn c s;
     {| id := string_of_Z (now_reply c + 2);
        content := match data with
                   | JNull => JStr connection_error
                   | _ => js_or (own_prop data "response") (JStr sorry_fallback)
                   end;
        msg_sender := Ai; timestamp := date_reply c; isLoading := false |}].
Proof.
  intros Hl Ht Hok. rewrite (sendMessage_shape c _ s Hl Ht). simpl.
  unfold ai_turn, reply_content, try_reply. rewrite Hok. simpl.
  destruct data; reflexivity.
Qed.

Lemma sendMessage_ok_reply_witness :
  loading typed_state = false /\ trim (inputValue typed_state) <> EmptyString /\
  ok 200 = true /\
  messages (sendMessage clk1
    (ChatResponse 200 (Some (JObj [("response", JStr "Here are your tickets...")])))
    typed_state)
  = messages typed_state ++
    [user_turn clk1 typed_state;
     {| id := string_of_Z 4; content := JStr "Here are your tickets...";
        msg_sender := Ai; timestamp := 2; isLoading := false |}].
Proof.
  assert (Hl : loading typed_state = false) by reflexivity.
  assert (Ht : trim (inputValue typed_state) <> EmptyString) by discriminate.
  assert (Hok : ok 200 = true) by reflexivity.
  split; [exact Hl|]. split; [exact Ht|]. split; [exact Hok|].
  exact (sendMessage_ok_reply clk1 200
           (JObj [("response", JStr "Here are your tickets...")])
           typed_state Hl Ht Hok).
Defined.

(** C4: on a rejected [fetch], a non-2xx status or a body that is not
    JSON, the call completes (no exception leaves [sendMessage]): the
    pending turn is replaced by a non-pending assistant turn holding the
    fixed connection-error text and the page is idle again. *)
Theorem sendMessage_failure (c : clock) (r : chat_reply) (s : state) :
  loading s = false -> trim (inputValue s) <> EmptyString -> chat_failure r ->
  sendMessage c r s
  = {| messages := messages s ++
         [user_turn c s;
          {| id := string_of_Z (now_reply c + 2); content := JStr connection_error;
             msg_sender := Ai; timestamp := date_reply c; isLoading := false |}];
       inputValue := EmptyString; loading := false |}.
Proof.
  intros Hl Ht Hf. rewrite (sendMessage_shape c r s Hl Ht).
  unfold ai_turn, reply_content, try_reply.
  destruct Hf as [|st b Hok|st Hok]; [reflexivity| |]; rewrite Hok;
    reflexivity.
Qed.

Lemma sendMessage_failure_witness :
  loading typed_state = false /\ trim (inputValue typed_state) <> EmptyString /\
  chat_failure (ChatResponse 503 None) /\
  loading (sendMessage clk1 (ChatResponse 503 None) typed_state) = false.
Proof.
  assert (Hl : loading typed_state = false) by reflexivity.
  assert (Ht : trim (inputValue typed_state) <> EmptyString) by discriminate.
  assert (Hf : chat_failure (ChatResponse 503 None))
    by (apply failure_status; reflexivity).
  split; [exact Hl|]. split; [exact Ht|]. split; [exact Hf|].
  rewrite (sendMessage_failure clk1 _ typed_state Hl Ht Hf). reflexivity.
Defined.

End ChatClaims.

Module LookupFacts.
Import Lookup.
Local Open Scope Z_scope.
Local Open Scope string_scope.
Local Open Scope list_scope.

Definition neq (q : string) : string -> bool := fun x => negb (String.eqb x q).

Example save_list_front :
  save_list "b" ["a"; "b"; "c"] = ["b"; "a"; "c"].
Proof. reflexivity. Qed.

Lemma fetchSummary_nonblank now identifier r s :
  trim identifier <> EmptyString ->
  fetchSummary now identifier r s
  = settle now identifier r (set_summary JNull (set_loading true s)).
Proof.
  intros Ht. unfold fetchSummary, lookup_begin.
  destruct (String.eqb_spec (trim identifier) EmptyString);
    [contradiction|reflexivity].
Qed.

Lemma filter_neq_not_In q l : ~ In q (filter (neq q) l).
Proof.
  rewrite filter_In. intros [_ H]. unfold neq in H.
  rewrite String.eqb_refl in H. discriminate.
Qed.

Lemma filter_neq_shorter q l :
  In q l -> (length (filter (neq q) l) < length l)%nat.
Proof.
  induction l as [|x l IH]; simpl; [contradiction|].
  intros [->|H].
  - unfold neq at 1. rewrite String.eqb_refl. simpl.
    pose proof (filter_length_le (neq q) l). lia.
  - destruct (neq q x); simpl; [pose proof (IH H); lia|].
    pose proof (filter_length_le (neq q) l). lia.
Qed.

Lemma NoDup_firstn_prefix {A} n (l : list A) : NoDup l -> NoDup (firstn n l).
Proof.
  revert l; induction n as [|n IH]; intros l H; [constructor|].
  destruct l as [|x l]; [constructor|]. simpl.
  apply NoDup_cons_iff in H as [Hx H]. constructor; [|exact (IH l H)].
  intros Hin. apply Hx. rewrite <- (firstn_skipn n l).
  apply in_or_app. left. exact Hin.
Qed.

Lemma save_list_NoDup q l : NoDup l -> NoDup (save_list q l).
Proof.
  intros H. unfold save_list. apply NoDup_firstn_prefix. constructor.
  - exact (filter_neq_not_In q l).
  - exact (NoDup_filter _ H).
Qed.

Lemma save_list_length q l : (length (save_list q l) <= 5)%nat.
Proof. apply firstn_le_length. Qed.

Definition wf_log (l : list string) : Prop := NoDup l /\ (length l <= 5)%nat.

(** [fetchSummary] leaves the log and its stored copy alone, or saves
    one identifier in front of the current log. *)
Lemma fetchSummary_log now identifier r s :
  (recentSearches (fetchSummary now identifier r s) = recentSearches s /\
   storage (fetchSummary now identifier r s) = storage s) \/
  (exists q,
     recentSearches (fetchSummary now identifier r s)
       = save_list q (recentSearches s) /\
     storage (fetchSummary now identifier r s)
       = Some (save_list q (recentSearches s))).
Proof.
  unfold fetchSummary, lookup_begin.
  destruct (String.eqb (trim identifier) EmptyString); [left; split; reflexivity|].
  unfold settle, try_reply.
  destruct r as [|st [data|]]; [left; split; reflexivity| |left; split; reflexivity].
  destruct (get_prop data "success") as [v|e];
    [|left; split; reflexivity].
  destruct (truthy v); [right; eexists; split; reflexivity|left; split; reflexivity].
Qed.

Lemma wf_reachable s :
  reachable s ->
  wf_log (recentSearches s) /\ (forall l, storage s = Some l -> wf_log l).
Proof.
  induction 1 as [|s s' _ [IHr IHs] Hs].
  - split; [split; [constructor|simpl; lia]|discriminate].
  - destruct Hs as [s|now identifier r s|s].
    + unfold load_recent. destruct (storage s) as [l|] eqn:E;
        [split; [exact (IHs l eq_refl)|simpl; intros l0 E0;
                 injection E0 as <-; exact (IHs l eq_refl)]|].
      split; [exact IHr|intros l E0; rewrite E in E0; discriminate].
    + destruct (fetchSummary_log now identifier r s) as [[E1 E2]|[q [E1 E2]]];
        rewrite E1, E2.
      * split; [exact IHr|exact IHs].
      * assert (W : wf_log (save_list q (recentSearches s)))
          by (split; [apply save_list_NoDup, (proj1 IHr)|apply save_list_length]).
        split; [exact W|intros l E; injection E as <-; exact W].
    + split; [split; [constructor|simpl; lia]|exact IHs].
Qed.

End LookupFacts.

Module LookupClaims.
Import Lookup LookupFacts.
Local Open Scope Z_scope.
Local Open Scope string_scope.
Local Open Scope list_scope.

(** Replies on which [fetchSummary] ends in its [catch] block. *)
Inductive lookup_failure : lookup_reply -> Prop :=
| lfailure_network : lookup_failure LookupNetworkFailure
| lfailure_json status : lookup_failure (LookupResponse status None)
| lfailure_null status : lookup_failure (LookupResponse status (Some JNull)).

Definition scenario_c : json :=
  JObj [ ("success", JBool true);
         ("ticket", JObj [("ticketID", JNum 13000020);
                          ("ticketNumber", JStr "2025090610000020")]);
         ("summary", JStr "...");
         ("conversationLength", JNum 4);
         ("attachmentCount", JNum 1);
         ("timestamp", JStr "2025-01-01T00:00:00Z") ].

(** C5: a JSON payload with [success: true] is stored as the result and
    rendered as a success from its [ticket], [timestamp], [summary],
    [conversationLength] and [attachmentCount] fields; the trimmed
    identifier goes to the front of the log, which is also persisted. *)
Theorem fetchSummary_success (now identifier : string) (status : Z)
  (data : json) (s : state) :
  trim identifier <> EmptyString ->
  own_prop data "success" = Some (JBool true) ->
  summaryData (fetchSummary now identifier (LookupResponse status (Some data)) s)
    = data /\
  render (fetchSummary now identifier (LookupResponse status (Some data)) s)
    = SuccessView (own_prop data "ticket") (own_prop data "timestamp")
        (own_prop data "summary") (own_prop data "conversationLength")
        (own_prop data "attachmentCount") /\
  recentSearches (fetchSummary now identifier (LookupResponse status (Some data)) s)
    = save_list (trim identifier) (recentSearches s) /\
  hd_error (recentSearches
              (fetchSummary now identifier (LookupResponse status (Some data)) s))
    = Some (trim identifier) /\
  storage (fetchSummary now identifier (LookupResponse status (Some data)) s)
    = Some (save_list (trim identifier) (recentSearches s)).
Proof.
  intros Ht Hs. rewrite (fetchSummary_nonblank _ _ _ _ Ht).
  destruct data as [| | | | |fs]; try discriminate Hs.
  unfold settle, try_reply. simpl in *. rewrite Hs. simpl.
  unfold render. simpl. rewrite Hs. repeat split.
Qed.

Lemma fetchSummary_success_witness :
  trim "13000020" <> EmptyString /\
  own_prop scenario_c "success" = Some (JBool true) /\
  hd_error (recentSearches (fetchSummary "t" "13000020"
              (LookupResponse 200 (Some scenario_c)) (init None)))
    = Some "13000020".
Proof.
  assert (Ht : trim "13000020" <> EmptyString) by discriminate.
  assert (Hs : own_prop scenario_c "success" = Some (JBool true)) by reflexivity.
  split; [exact Ht|]. split; [exact Hs|].
  exact (proj1 (proj2 (proj2 (proj2
           (fetchSummary_success "t" "13000020" 200 scenario_c (init None) Ht Hs))))).
Defined.

(** C6 (refuted as stated): the default not-found text quotes the
    payload's own [identifier] field, not the searched identifier. *)
Lemma not_found_default_counterexample :
  render (fetchSummary "t" "13000020"
            (LookupResponse 200
               (Some (JObj [("success", JBool false);
                            ("identifier", JStr "2025090610000020")])))
            (init None))
  = NotFoundView (JStr "No ticket found with identifier: 2025090610000020") /\
  String.index 0 "13000020"
    "No ticket found with identifier: 2025090610000020" = None.
Proof. split; reflexivity. Qed.

(** C6 (amended): a JSON object whose [success] is falsy is stored and
    rendered as not found with its [message], or when that is absent or
    falsy with [No ticket found with identifier: ] followed by the
    payload's own [identifier] field; a rejected [fetch], a body that is
    not JSON or a JSON [null] body stores the fixed transport-error record,
    rendered with its message naming [localhost:3002].  Neither touches
    the log or its stored copy. *)
Theorem fetchSummary_failure (now identifier : string) (s : state) :
  trim identifier <> EmptyString ->
  (forall status fs,
     truthy (assoc_last fs "success") = false ->
     summaryData (fetchSummary now identifier
                    (LookupResponse status (Some (JObj fs))) s) = JObj fs /\
     render (fetchSummary now identifier
               (LookupResponse status (Some (JObj fs))) s)
       = NotFoundView
           (js_or (assoc_last fs "message")
              (JStr ("No ticket found with identifier: "
                     ++ template (assoc_last fs "identifier")))) /\
     recentSearches (fetchSummary now identifier
                       (LookupResponse status (Some (JObj fs))) s)
       = recentSearches s /\
     storage (fetchSummary now identifier
                (LookupResponse status (Some (JObj fs))) s) = storage s) /\
  (forall r, lookup_failure r ->
     summaryData (fetchSummary now identifier r s)
       = error_record (trim identifier) now /\
     render (fetchSummary now identifier r s)
       = NotFoundView (JStr connection_message) /\
     recentSearches (fetchSummary now identifier r s) = recentSearches s /\
     storage (fetchSummary now identifier r s) = storage s).
Proof.
  intros Ht. split.
  - intros status fs Hf. rewrite (fetchSummary_nonblank _ _ _ _ Ht).
    unfold settle, try_reply. simpl. rewrite Hf. simpl.
    unfold render. simpl. rewrite Hf. repeat split.
  - intros r Hr. rewrite (fetchSummary_nonblank _ _ _ _ Ht).
    destruct Hr; repeat split.
Qed.

Lemma fetchSummary_failure_witness :
  trim "nonexistent" <> EmptyString /\
  render (fetchSummary "t" "nonexistent"
            (LookupResponse 200 (Some (JObj [("success", JBool false);
                                           ("message", JStr "No ticket found")])))
            (init None))
  = NotFoundView (JStr "No ticket found").
Proof.
  assert (Ht : trim "nonexistent" <> EmptyString) by discriminate.
  split; [exact Ht|].
  exact (proj1 (proj2 (proj1 (fetchSummary_failure "t" "nonexistent" (init None) Ht)
           200 [("success", JBool false); ("message", JStr "No ticket found")]
           eq_refl))).
Defined.

End LookupClaims.

Module LogClaims.
Import Lookup LookupFacts.
Local Open Scope string_scope.
Local Open Scope list_scope.

Lemma filter_neq_fresh q l : ~ In q l -> filter (neq q) l = l.
Proof.
  induction l as [|x l IH]; intros H; [reflexivity|]. simpl.
  unfold neq at 1. destruct (String.eqb_spec x q) as [->|_].
  - exfalso. apply H. left. reflexivity.
  - simpl. f_equal. apply IH. intros Hin. apply H. right. exact Hin.
Qed.

Lemma save_list_fresh q l : ~ In q l -> save_list q l = q :: firstn 4 l.
Proof.
  intros H. unfold save_list.
  change (firstn 5 (q :: filter (neq q) l) = q :: firstn 4 l).
  rewrite filter_neq_fresh by exact H. reflexivity.
Qed.

Definition save_all (ids : list string) (l : list string) : list string :=
  fold_left (fun acc q => save_list q acc) ids l.

(** C7: saving [q] leaves exactly one [q], first, followed by the other
    entries in their order (all of them when the log had at most five
    entries and held [q]); six distinct identifiers saved into an empty
    log leave the five latest, latest first; every reachable state keeps
    the log, and its stored copy, duplicate-free and at most five long. *)
Theorem recent_search_log :
  (forall q l,
     count_occ string_dec (save_list q l) q = 1%nat /\
     save_list q l = q :: firstn 4 (filter (neq q) l)) /\
  (forall q l, (length l <= 5)%nat -> In q l ->
     save_list q l = q :: filter (neq q) l) /\
  (forall a b c d e f, NoDup [a; b; c; d; e; f] ->
     save_all [a; b; c; d; e; f] [] = [f; e; d; c; b]) /\
  (forall s, reachable s ->
     NoDup (recentSearches s) /\ (length (recentSearches s) <= 5)%nat /\
     (forall l, storage s = Some l -> NoDup l /\ (length l <= 5)%nat)).
Proof.
  split; [|split; [|split]].
  - intros q l. split; [|reflexivity].
    unfold save_list. simpl.
    destruct (string_dec q q) as [_|N]; [|contradiction N; reflexivity].
    f_equal. apply count_occ_not_In. intros Hin.
    apply (filter_neq_not_In q l). rewrite <- (firstn_skipn 4 (filter (neq q) l)).
    apply in_or_app. left. exact Hin.
  - intros q l Hlen Hin. unfold save_list.
    change (firstn 5 (q :: filter (neq q) l) = q :: filter (neq q) l).
    rewrite firstn_cons. f_equal. apply firstn_all2. pose proof (filter_neq_shorter q l Hin). lia.
  - intros a b c d e f H.
    apply NoDup_cons_iff in H as [Ha H]. apply NoDup_cons_iff in H as [Hb H].
    apply NoDup_cons_iff in H as [Hc H]. apply NoDup_cons_iff in H as [Hd H].
    apply NoDup_cons_iff in H as [He _].
    unfold save_all. simpl fold_left.
    rewrite (save_list_fresh a []) by (simpl; tauto). cbn [firstn].
    rewrite (save_list_fresh b [a]) by (simpl in *; intuition). cbn [firstn].
    rewrite (save_list_fresh c [b; a]) by (simpl in *; intuition). cbn [firstn].
    rewrite (save_list_fresh d [c; b; a]) by (simpl in *; intuition). cbn [firstn].
    rewrite (save_list_fresh e [d; c; b; a]) by (simpl in *; intuition). cbn [firstn].
    rewrite (save_list_fresh f [e; d; c; b; a]) by (simpl in *; intuition). cbn [firstn].
    reflexivity.
  - intros s R. destruct (wf_reachable s R) as [[N L] W].
    split; [exact N|]. split; [exact L|exact W].
Qed.

Lemma recent_search_log_witness :
  NoDup ["1"; "2"; "3"; "4"; "5"; "6"] /\
  save_all ["1"; "2"; "3"; "4"; "5"; "6"] [] = ["6"; "5"; "4"; "3"; "2"] /\
  save_list "b" ["a"; "b"; "c"] = ["b"; "a"; "c"].
Proof.
  assert (N : NoDup ["1"; "2"; "3"; "4"; "5"; "6"]).
  { repeat constructor; simpl; intuition discriminate. }
  split; [exact N|]. split.
  - exact (proj1 (proj2 (proj2 recent_search_log)) _ _ _ _ _ _ N).
  - apply (proj1 (proj2 recent_search_log)); simpl; [lia|].
    right. left. reflexivity.
Defined.

End LogClaims.

Module InputClaims.
Import TrimFacts.
Local Open Scope Z_scope.
Local Open Scope string_scope.

(** C8: the inputs [trim] empties are exactly the empty and the
    whitespace-only ones (whitespace in the sense of
    [String.prototype.trim], [U+00A0] or [U+3000] included); on such a
    text [sendMessage] returns before issuing a request and leaves the
    page state unchanged, and so does [fetchSummary] on such an
    identifier. *)
Theorem blank_input_noop :
  (forall v, trim v = EmptyString <-> whitespace_only v) /\
  (forall c r s, whitespace_only (Chat.inputValue s) ->
     Chat.send_begin c s = None /\ Chat.sendMessage c r s = s) /\
  (forall now identifier r s, whitespace_only identifier ->
     Lookup.lookup_begin identifier s = None /\
     Lookup.fetchSummary now identifier r s = s).
Proof.
  split; [exact trim_empty_iff|split].
  - intros c r s W. apply trim_empty_iff in W.
    assert (B : Chat.send_begin c s = None)
      by (unfold Chat.send_begin; rewrite W; reflexivity).
    split; [exact B|]. unfold Chat.sendMessage. rewrite B. reflexivity.
  - intros now identifier r s W. apply trim_empty_iff in W.
    assert (B : Lookup.lookup_begin identifier s = None)
      by (unfold Lookup.lookup_begin; rewrite W; reflexivity).
    split; [exact B|]. unfold Lookup.fetchSummary. rewrite B. reflexivity.
Qed.

(** No-break space, ideographic space, tab. *)
Definition blank_text : string :=
  string_of_list_ascii (utf8 0xA0 ++ utf8 0x3000 ++ utf8 0x9)%list.

Lemma blank_input_noop_witness :
  whitespace_only blank_text /\
  Chat.sendMessage ChatClaims.clk1 Chat.ChatNetworkFailure
    (Chat.set_input blank_text (Chat.mount_effect 0 Chat.init))
  = Chat.set_input blank_text (Chat.mount_effect 0 Chat.init) /\
  Lookup.fetchSummary "t" blank_text Lookup.LookupNetworkFailure (Lookup.init None)
  = Lookup.init None.
Proof.
  assert (W : whitespace_only blank_text).
  { exists [utf8 0xA0; utf8 0x3000; utf8 0x9]. split; [|reflexivity].
    repeat constructor; apply in_map; unfold js_ws; simpl;
      repeat first [left; reflexivity | right]. }
  split; [exact W|]. split.
  - exact (proj2 (proj1 (proj2 blank_input_noop) ChatClaims.clk1
                    Chat.ChatNetworkFailure
                    (Chat.set_input blank_text (Chat.mount_effect 0 Chat.init)) W)).
  - exact (proj2 (proj2 (proj2 blank_input_noop) "t" _ Lookup.LookupNetworkFailure
                    (Lookup.init None) W)).
Defined.

End InputClaims.

Module ResultClaims.
Import Lookup LookupFacts LookupClaims.
Local Open Scope Z_scope.
Local Open Scope string_scope.
Local Open Scope list_scope.




(** C10 (refuted as stated): a non-2xx reply whose body is JSON [null]
    stores the transport-error record, not the payload. *)
Lemma status_null_body_counterexample :
  summaryData (fetchSummary "t" "13000020" (LookupResponse 500 (Some JNull))
                 (init None))
  = error_record "13000020" "t" /\
  error_record "13000020" "t" <> JNull.
Proof. split; [reflexivity|discriminate]. Qed.

(** C10 (amended): [fetchSummary] never reads the status: the outcome for
    a body is the same at every status.  A body that parses to a JSON
    value other than [null] is stored as the result and, when its
    [success] is truthy, the identifier is put in front of the log; a JSON
    [null] body stores the transport-error record at every status. *)
Theorem fetchSummary_ignores_status (now identifier : string) (s : state) :
  trim identifier <> EmptyString ->
  (forall st1 st2 body,
     fetchSummary now identifier (LookupResponse st1 body) s
     = fetchSummary now identifier (LookupResponse st2 body) s) /\
  (forall status data, data <> JNull ->
     summaryData (fetchSummary now identifier (LookupResponse status (Some data)) s)
       = data /\
     recentSearches (fetchSummary now identifier
                       (LookupResponse status (Some data)) s)
       = (if truthy (own_prop data "success")
          then save_list (trim identifier) (recentSearches s)
          else recentSearches s)) /\
  (forall status,
     summaryData (fetchSummary now identifier (LookupResponse status (Some JNull)) s)
       = error_record (trim identifier) now).
Proof.
  intros Ht. split; [|split].
  - intros st1 st2 body. rewrite !(fetchSummary_nonblank _ _ _ _ Ht).
    reflexivity.
  - intros status data Hn. rewrite (fetchSummary_nonblank _ _ _ _ Ht).
    unfold settle, try_reply, get_prop.
    destruct data as [| b | n | str | l | fs]; [contradiction Hn; reflexivity|..];
      simpl; [split; reflexivity..|].
    destruct (truthy (assoc_last fs "success")); split; reflexivity.
  - intros status. rewrite (fetchSummary_nonblank _ _ _ _ Ht). reflexivity.
Qed.

Lemma fetchSummary_ignores_status_witness :
  trim "13000020" <> EmptyString /\
  fetchSummary "t" "13000020" (LookupResponse 404 (Some scenario_c)) (init None)
  = fetchSummary "t" "13000020" (LookupResponse 200 (Some scenario_c)) (init None).
Proof.
  assert (Ht : trim "13000020" <> EmptyString) by discriminate.
  split; [exact Ht|].
  exact (proj1 (fetchSummary_ignores_status "t" "13000020" (init None) Ht)
           404 200 (Some scenario_c)).
Defined.

End ResultClaims.

(** * Further properties of the client code *)


(** ** Event handlers around the two stateful handlers *)

Module Handlers.
Local Open Scope Z_scope.
Local Open Scope string_scope.



(** [disabled={!inputValue.trim() || isLoading}] of the send button. *)
Definition send_button_disabled (s : Chat.state) : bool :=
  String.eqb (trim (Chat.inputValue s)) EmptyString || Chat.loading s.

(** [handleSearch] of [SummaryPage], reading [searchQuery]. *)
Definition handleSearch (now : string) (searchQuery : string)
  (r : Lookup.lookup_reply) (s : Lookup.state) : Lookup.state :=
  if negb (String.eqb (trim searchQuery) EmptyString)
  then Lookup.fetchSummary now (trim searchQuery) r s else s.

(** [handleKeyPress] of [SummaryPage]. *)
Definition lookup_handleKeyPress (key : string) (now : string)
  (searchQuery : string) (r : Lookup.lookup_reply) (s : Lookup.state)
  : Lookup.state :=
  if String.eqb key "Enter" then handleSearch now searchQuery r s else s.

(** [disabled={!searchQuery.trim() || isLoading}] of the search button. *)
Definition search_button_disabled (searchQuery : string) (s : Lookup.state)
  : bool :=
  String.eqb (trim searchQuery) EmptyString || Lookup.loading s.

End Handlers.

(** ** Navigation of [Layout] (src/unnamed/part_000) *)

Module Layout.

(** A navigation entry; the [icon] component is left out. *)
Record nav_item : Type := mkNav { name : string; href : string;
                                  description : string }.

Definition navigation : list nav_item :=
  [ {| name := "Conversation"; href := "/"; description := "Chat with AI" |};
    {| name := "Summary"; href := "/summary";
       description := "Quick ticket summaries" |} ].

(** [isActive = router.pathname === item.href]. *)
Definition isActive (pathname : string) (item : nav_item) : bool :=
  String.eqb pathname (href item).

Definition active_items (pathname : string) : list nav_item :=
  filter (isActive pathname) navigation.

End Layout.

Module Extras.
Import TrimFacts Handlers.
Local Open Scope Z_scope.
Local Open Scope string_scope.
Local Open Scope list_scope.

Lemma fetchSummary_trim now q r s :
  Lookup.fetchSummary now (trim q) r s = Lookup.fetchSummary now q r s.
Proof.
  unfold Lookup.fetchSummary, Lookup.lookup_begin, Lookup.settle,
    Lookup.try_reply.
  rewrite trim_idem. reflexivity.
Qed.

(** Searching from the box (button or Enter) is the same as calling
    [fetchSummary] on the raw query; any other key changes nothing. *)
Theorem handleSearch_is_fetchSummary (now q : string) (r : Lookup.lookup_reply)
  (s : Lookup.state) :
  handleSearch now q r s = Lookup.fetchSummary now q r s /\
  lookup_handleKeyPress "Enter" now q r s = Lookup.fetchSummary now q r s /\
  (forall key, key <> "Enter" -> lookup_handleKeyPress key now q r s = s).
Proof.
  assert (H : handleSearch now q r s = Lookup.fetchSummary now q r s).
  { unfold handleSearch.
    destruct (String.eqb_spec (trim q) EmptyString) as [E|E]; simpl.
    - unfold Lookup.fetchSummary, Lookup.lookup_begin. rewrite E. reflexivity.
    - apply fetchSummary_trim. }
  split; [exact H|]. split; [exact H|].
  intros key Hk. unfold lookup_handleKeyPress.
  destruct (String.eqb_spec key "Enter"); [contradiction|reflexivity].
Qed.

Lemma handleSearch_is_fetchSummary_witness :
  "Escape" <> "Enter" /\
  lookup_handleKeyPress "Escape" "t" "13000020" Lookup.LookupNetworkFailure
    (Lookup.init None) = Lookup.init None.
Proof.
  assert (Hk : "Escape" <> "Enter") by discriminate.
  split; [exact Hk|].
  exact (proj2 (proj2 (handleSearch_is_fetchSummary "t" "13000020"
           Lookup.LookupNetworkFailure (Lookup.init None))) "Escape" Hk).
Defined.



(** The send button is disabled exactly when [sendMessage] would return
    without a request; the search button is disabled exactly when a
    lookup is running or [handleSearch] would return without a request. *)
Theorem buttons_disabled_iff_noop (c : Chat.clock) (s : Chat.state)
  (q : string) (ls : Lookup.state) :
  (send_button_disabled s = true <-> Chat.send_begin c s = None) /\
  (search_button_disabled q ls = true <->
     Lookup.loading ls = true \/ Lookup.lookup_begin (trim q) ls = None).
Proof.
  split.
  - unfold send_button_disabled, Chat.send_begin.
    destruct (String.eqb (trim (Chat.inputValue s)) EmptyString || Chat.loading s);
      split; intros H; try reflexivity; discriminate.
  - unfold search_button_disabled, Lookup.lookup_begin. rewrite trim_idem.
    destruct (String.eqb (trim q) EmptyString), (Lookup.loading ls); simpl;
      split; intros H; try discriminate; auto; destruct H; discriminate.
Qed.






End Extras.

Module Extras2.
Import Lookup LookupFacts TrimFacts.
Local Open Scope Z_scope.
Local Open Scope string_scope.
Local Open Scope list_scope.

Lemma save_list_perm q l :
  NoDup l -> In q l -> Permutation (q :: filter (neq q) l) l.
Proof.
  induction l as [|x t IH]; intros N Hin; [contradiction|].
  apply NoDup_cons_iff in N as [Hx N]. simpl.
  unfold neq at 1. destruct (String.eqb_spec x q) as [->|E]; simpl.
  - rewrite LogClaims.filter_neq_fresh by exact Hx. reflexivity.
  - destruct Hin as [Hq|Hin]; [contradiction E; exact Hq|].
    fold (neq q).
    apply perm_trans with (x :: q :: filter (neq q) t); [apply perm_swap|].
    apply perm_skip. exact (IH N Hin).
Qed.

Lemma In_firstn_In {A} n (l : list A) x : In x (firstn n l) -> In x l.
Proof.
  intros H. rewrite <- (firstn_skipn n l). apply in_or_app. left. exact H.
Qed.

Lemma save_list_In x q l : In x (save_list q l) -> x = q \/ In x l.
Proof.
  unfold save_list. intros H. apply In_firstn_In in H.
  destruct H as [H|H]; [left; symmetry; exact H|right].
  apply filter_In in H. exact (proj1 H).
Qed.

Definition trimmed_log (l : list string) : Prop :=
  forall x, In x l -> trim x = x /\ x <> EmptyString.

(** Every entry the page ever holds or stores in the log is a non-empty
    trimmed identifier. *)
Lemma trimmed_reachable s :
  reachable s ->
  trimmed_log (recentSearches s) /\
  (forall l, storage s = Some l -> trimmed_log l).
Proof.
  assert (Save : forall q l, trim q <> EmptyString -> trimmed_log l ->
                 trimmed_log (save_list (trim q) l)).
  { intros q l Hq T x Hx. apply save_list_In in Hx as [->|Hx];
      [split; [apply trim_idem|exact Hq]|exact (T x Hx)]. }
  induction 1 as [|s s' _ [IHr IHs] Hs].
  - split; [intros x []|discriminate].
  - destruct Hs as [s|now identifier r s|s].
    + unfold load_recent. destruct (storage s) as [l|] eqn:E.
      * split; [exact (IHs l eq_refl)|simpl; intros l0 E0;
                injection E0 as <-; exact (IHs l eq_refl)].
      * split; [exact IHr|intros l E0; rewrite E in E0; discriminate].
    + unfold fetchSummary, lookup_begin.
      destruct (String.eqb_spec (trim identifier) EmptyString) as [_|Hne];
        [split; [exact IHr|exact IHs]|].
      unfold settle, try_reply.
      destruct r as [|st [data|]]; [split; [exact IHr|exact IHs]| |
                                    split; [exact IHr|exact IHs]].
      destruct (get_prop data "success") as [v|e];
        [|split; [exact IHr|exact IHs]].
      destruct (truthy v); [|split; [exact IHr|exact IHs]].
      simpl. split; [exact (Save _ _ Hne IHr)|].
      intros l E; injection E as <-. exact (Save _ _ Hne IHr).
    + split; [intros x []|exact IHs].
Qed.

Lemma fetch_payload now identifier status data s :
  trim identifier <> EmptyString -> data <> JNull ->
  summaryData (fetchSummary now identifier (LookupResponse status (Some data)) s)
    = data /\
  loading (fetchSummary now identifier (LookupResponse status (Some data)) s)
    = false /\
  recentSearches (fetchSummary now identifier (LookupResponse status (Some data)) s)
    = (if truthy (own_prop data "success")
       then save_list (trim identifier) (recentSearches s)
       else recentSearches s) /\
  storage (fetchSummary now identifier (LookupResponse status (Some data)) s)
    = (if truthy (own_prop data "success")
       then Some (save_list (trim identifier) (recentSearches s))
       else storage s).
Proof.
  intros Ht Hn. rewrite (fetchSummary_nonblank _ _ _ _ Ht).
  unfold settle, try_reply, get_prop.
  destruct data as [| b | n | str | l | fs]; [contradiction Hn; reflexivity|..];
    simpl; [repeat split..|].
  destruct (truthy (assoc_last fs "success")); repeat split.
Qed.

Lemma fetch_failed now identifier r s :
  trim identifier <> EmptyString -> LookupClaims.lookup_failure r ->
  summaryData (fetchSummary now identifier r s)
    = error_record (trim identifier) now /\
  loading (fetchSummary now identifier r s) = false /\
  recentSearches (fetchSummary now identifier r s) = recentSearches s /\
  storage (fetchSummary now identifier r s) = storage s.
Proof.
  intros Ht Hr. rewrite (fetchSummary_nonblank _ _ _ _ Ht).
  destruct Hr; repeat split.
Qed.

Lemma render_idle s :
  loading s = false ->
  render s = if negb (truthy (Some (summaryData s))) then EmptyView
             else if truthy (own_prop (summaryData s) "success")
             then SuccessView (own_prop (summaryData s) "ticket")
                    (own_prop (summaryData s) "timestamp")
                    (own_prop (summaryData s) "summary")
                    (own_prop (summaryData s) "conversationLength")
                    (own_prop (summaryData s) "attachmentCount")
             else NotFoundView
                    (js_or (own_prop (summaryData s) "message")
                       (JStr ("No ticket found with identifier: "
                              ++ template (own_prop (summaryData s) "identifier")))).
Proof. intros H. unfold render. rewrite H. reflexivity. Qed.

(** Looking up again an identifier of the log (a recent-search button)
    with a reply whose [success] is truthy moves it to the front and keeps
    exactly the same entries: the new log is a permutation of the old
    one. *)
Theorem research_recent_permutes (now q : string) (status : Z) (data : json)
  (s : state) :
  reachable s -> In q (recentSearches s) ->
  truthy (own_prop data "success") = true ->
  recentSearches (fetchSummary now q (LookupResponse status (Some data)) s)
    = q :: filter (neq q) (recentSearches s) /\
  Permutation (recentSearches (fetchSummary now q
                 (LookupResponse status (Some data)) s))
              (recentSearches s).
Proof.
  intros R Hin Hs.
  destruct (wf_reachable s R) as [[N L] _].
  destruct (proj1 (trimmed_reachable s R) q Hin) as [Tq Ne].
  rewrite <- Tq in Ne.
  assert (Dn : data <> JNull) by (intros ->; discriminate Hs).
  destruct (fetch_payload now q status data s Ne Dn) as [_ [_ [E _]]].
  rewrite E, Hs, Tq.
  assert (F : save_list q (recentSearches s) = q :: filter (neq q) (recentSearches s)).
  { unfold save_list.
    change (firstn 5 (q :: filter (neq q) (recentSearches s))
            = q :: filter (neq q) (recentSearches s)).
    rewrite firstn_cons. f_equal. apply firstn_all2.
    pose proof (filter_neq_shorter q _ Hin). lia. }
  rewrite F. split; [reflexivity|]. exact (save_list_perm q _ N Hin).
Qed.

Definition after_c : state :=
  fetchSummary "t" "13000020" (LookupResponse 200 (Some LookupClaims.scenario_c))
    (init None).

(** A reply whose [success] is the truthy number [1]. *)
Definition found_payload : json := JObj [("success", JNum 1)].

Definition found (identifier : string) (s : state) : state :=
  fetchSummary "t" identifier (LookupResponse 200 (Some found_payload)) s.

(** The log after looking up [c], [b] and [a]. *)
Definition after_cba : state := found "a" (found "b" (found "c" (init None))).

Lemma after_cba_reachable : reachable after_cba.
Proof.
  eapply reach_step; [|apply StepLookup].
  eapply reach_step; [|apply StepLookup].
  eapply reach_step; [apply reach_init|apply StepLookup].
Qed.

Lemma research_recent_permutes_witness :
  reachable after_cba /\ In "c" (recentSearches after_cba) /\
  truthy (own_prop found_payload "success") = true /\
  recentSearches after_cba = ["a"; "b"; "c"] /\
  recentSearches (found "c" after_cba) = ["c"; "a"; "b"] /\
  Permutation (recentSearches (found "c" after_cba)) (recentSearches after_cba).
Proof.
  assert (Hin : In "c" (recentSearches after_cba))
    by (right; right; left; reflexivity).
  assert (Hs : truthy (own_prop found_payload "success") = true) by reflexivity.
  split; [exact after_cba_reachable|]. split; [exact Hin|]. split; [exact Hs|].
  destruct (research_recent_permutes "t" "c" 200 found_payload after_cba
              after_cba_reachable Hin Hs) as [E P].
  split; [reflexivity|]. split; [exact E|exact P].
Defined.

(** The stored copy mirrors the log: once the log has been loaded (or is
    still empty with nothing stored), every lookup keeps the stored copy
    equal to the log, and reloading the page then running the load
    effect gives back exactly the same log. *)
Definition mirrored (s : state) : Prop :=
  storage s = Some (recentSearches s) \/
  (storage s = None /\ recentSearches s = []).

Theorem persisted_log_roundtrip (now identifier : string) (r : lookup_reply)
  (s : state) :
  mirrored s ->
  mirrored (fetchSummary now identifier r s) /\
  recentSearches (load_recent (init (storage (fetchSummary now identifier r s))))
    = recentSearches (fetchSummary now identifier r s).
Proof.
  intros M.
  assert (M' : mirrored (fetchSummary now identifier r s)).
  { destruct (fetchSummary_log now identifier r s) as [[E1 E2]|[q [E1 E2]]].
    - unfold mirrored. rewrite E1, E2. exact M.
    - left. rewrite E1, E2. reflexivity. }
  split; [exact M'|].
  unfold load_recent; simpl.
  destruct M' as [E|[E1 E2]]; rewrite ?E, ?E1; [reflexivity|].
  symmetry. exact E2.
Qed.

Lemma persisted_log_roundtrip_witness :
  mirrored (init None) /\
  recentSearches (load_recent (init (storage after_c))) = ["13000020"].
Proof.
  assert (M : mirrored (init None)) by (right; split; reflexivity).
  split; [exact M|].
  exact (proj2 (persisted_log_roundtrip "t" "13000020"
           (LookupResponse 200 (Some LookupClaims.scenario_c)) (init None) M)).
Defined.

(** After a non-blank lookup the page is idle and shows a result; it
    shows nothing exactly when the body parsed to a falsy JSON value other
    than [null] ([false], [0] or [""]). *)
Theorem render_after_lookup (now identifier : string) (r : lookup_reply)
  (s : state) :
  trim identifier <> EmptyString ->
  render (fetchSummary now identifier r s) <> LoadingView /\
  (render (fetchSummary now identifier r s) = EmptyView <->
   exists status v, r = LookupResponse status (Some v) /\ v <> JNull /\
                    truthy (Some v) = false).
Proof.
  intros Ht.
  assert (Fail : LookupClaims.lookup_failure r ->
                 render (fetchSummary now identifier r s)
                 = NotFoundView (JStr connection_message)).
  { intros Hr. destruct (fetch_failed now identifier r s Ht Hr) as [D [L _]].
    rewrite render_idle, D by exact L. reflexivity. }
  destruct r as [|status [data|]].
  - rewrite Fail by constructor. split; [discriminate|].
    split; [discriminate|intros [st [v [E _]]]; discriminate E].
  - assert (Cases : data = JNull \/ data <> JNull)
      by (destruct data; [left; reflexivity|right; discriminate..]).
    destruct Cases as [->|Dn].
    + rewrite Fail by constructor. split; [discriminate|].
      split; [discriminate|].
      intros [st [v [E [N _]]]]. injection E as _ <-. contradiction N.
      reflexivity.
    + destruct (fetch_payload now identifier status data s Ht Dn) as [D [L _]].
      rewrite render_idle, D by exact L.
      destruct (truthy (Some data)) eqn:T; simpl.
      * split; [destruct (truthy (own_prop data "success")); discriminate|].
        split; [destruct (truthy (own_prop data "success")); discriminate|].
        intros [st [v [E [_ T']]]]. injection E as _ E'. subst v.
        change (truthy (Some data) = false) in T'. congruence.
      * split; [discriminate|].
        split; [intros _; exists status, data; auto|reflexivity].
  - rewrite Fail by constructor. split; [discriminate|].
    split; [discriminate|intros [st [v [E _]]]; discriminate E].
Qed.

Lemma render_after_lookup_witness :
  trim "13000020" <> EmptyString /\
  render (fetchSummary "t" "13000020" (LookupResponse 200 (Some (JBool false)))
            (init None)) = EmptyView.
Proof.
  assert (Ht : trim "13000020" <> EmptyString) by discriminate.
  split; [exact Ht|].
  apply (proj2 (render_after_lookup "t" "13000020"
           (LookupResponse 200 (Some (JBool false))) (init None) Ht)).
  exists 200, (JBool false). split; [reflexivity|]. split; [discriminate|].
  reflexivity.
Defined.



(** While a lookup is in flight the previous result is gone and the page
    shows only the loading view; the log is untouched until the reply. *)
Theorem lookup_in_flight (identifier : string) (s s1 : state)
  (req : summary_request) :
  lookup_begin identifier s = Some (s1, req) ->
  render s1 = LoadingView /\ summaryData s1 = JNull /\
  recentSearches s1 = recentSearches s /\ storage s1 = storage s.
Proof.
  unfold lookup_begin. destruct (String.eqb (trim identifier) EmptyString);
    [discriminate|]. intros H. injection H as <- _. repeat split.
Qed.

Lemma lookup_in_flight_witness :
  lookup_begin "13000020" after_c
    = Some (set_summary JNull (set_loading true after_c),
            {| req_identifier := "13000020" |}) /\
  render (set_summary JNull (set_loading true after_c)) = LoadingView.
Proof.
  assert (H : lookup_begin "13000020" after_c
    = Some (set_summary JNull (set_loading true after_c),
            {| req_identifier := "13000020" |})) by reflexivity.
  split; [exact H|]. exact (proj1 (lookup_in_flight _ _ _ _ H)).
Defined.
End Extras2.

Module Extras3.
Import Chat ChatFacts TrimFacts.
Local Open Scope Z_scope.
Local Open Scope string_scope.
Local Open Scope list_scope.

(** The three turns one [sendMessage] call creates, the user turn, the
    placeholder and the reply, get pairwise distinct ids
    ([Date.now()], [Date.now() + 1], [Date.now() + 2] read at lines 65,
    72 and 101 or 113) as long as the clock does not go back.  But a next
    call whose first [Date.now()] comes two milliseconds after the reply's
    gives its user turn the reply's id: the transcript then holds two
    different turns with one id. *)
Theorem message_ids (c c' : clock) (r r' : chat_reply) (v : string) (s : state) :
  loading s = false -> trim (inputValue s) <> EmptyString ->
  now_user c <= now_loading c <= now_reply c ->
  (exists s1 req u p a,
     send_begin c s = Some (s1, req) /\
     messages s1 = messages s ++ [u; p] /\ isLoading p = true /\
     messages (sendMessage c r s) = messages s ++ [u; a] /\
     id u <> id p /\ id u <> id a /\ id p <> id a) /\
  (trim v <> EmptyString -> now_user c' = now_reply c + 2 ->
   exists u a u' a',
     messages (sendMessage c' r' (set_input v (sendMessage c r s)))
       = messages s ++ [u; a; u'; a'] /\
     id a = id u' /\ a <> u').
Proof.
  intros Hl Ht Hc. split.
  - assert (B : send_begin c s
      = Some ({| messages := messages s ++
                   [user_turn c s;
                    {| id := string_of_Z (now_loading c + 1);
                       content := JStr EmptyString; msg_sender := Ai;
                       timestamp := date_loading c; isLoading := true |}];
                 inputValue := EmptyString; loading := true |},
              {| req_url := API_BASE_URL ++ "/chat";
                 req_message := trim (inputValue s);
                 req_sessionId := SESSION_ID |})).
    { unfold send_begin. rewrite Hl, orb_false_r.
      destruct (String.eqb_spec (trim (inputValue s)) EmptyString);
        [contradiction|reflexivity]. }
    do 5 eexists. split; [exact B|]. split; [reflexivity|].
    split; [reflexivity|].
    split; [rewrite (sendMessage_shape c r s Hl Ht); reflexivity|].
    simpl. split; [|split]; intros E; apply string_of_Z_inj in E; lia.
  - intros Hv Hn.
    set (s1 := set_input v (sendMessage c r s)).
    assert (L1 : loading s1 = false).
    { unfold s1. rewrite (sendMessage_shape c r s Hl Ht). reflexivity. }
    rewrite (sendMessage_shape c' r' s1 L1 Hv).
    unfold s1 at 1. rewrite (sendMessage_shape c r s Hl Ht). simpl.
    do 4 eexists. split; [rewrite <- app_assoc; reflexivity|].
    split; [simpl; rewrite Hn; reflexivity|].
    intros E. injection E. discriminate.
Qed.

(** The reply of a first call at [2] and a second call at [4]. *)
Definition clk2 : clock :=
  {| now_user := 4; date_user := 4; now_loading := 4; date_loading := 4;
     now_reply := 5; date_reply := 5 |}.

Lemma message_ids_witness :
  loading ChatClaims.typed_state = false /\
  trim (inputValue ChatClaims.typed_state) <> EmptyString /\
  (now_user ChatClaims.clk1 <= now_loading ChatClaims.clk1
     <= now_reply ChatClaims.clk1) /\
  trim "again" <> EmptyString /\ now_user clk2 = now_reply ChatClaims.clk1 + 2 /\
  exists u a u' a',
    messages (sendMessage clk2 ChatNetworkFailure
                (set_input "again" (sendMessage ChatClaims.clk1 ChatNetworkFailure
                                      ChatClaims.typed_state)))
      = messages ChatClaims.typed_state ++ [u; a; u'; a'] /\
    id a = id u' /\ a <> u'.
Proof.
  assert (Hl : loading ChatClaims.typed_state = false) by reflexivity.
  assert (Ht : trim (inputValue ChatClaims.typed_state) <> EmptyString)
    by discriminate.
  assert (Hc : now_user ChatClaims.clk1 <= now_loading ChatClaims.clk1
                 <= now_reply ChatClaims.clk1) by (simpl; lia).
  assert (Hv : trim "again" <> EmptyString) by discriminate.
  assert (Hn : now_user clk2 = now_reply ChatClaims.clk1 + 2) by reflexivity.
  split; [exact Hl|]. split; [exact Ht|]. split; [exact Hc|].
  split; [exact Hv|]. split; [exact Hn|].
  exact (proj2 (message_ids ChatClaims.clk1 clk2 ChatNetworkFailure
           ChatNetworkFailure "again" ChatClaims.typed_state Hl Ht Hc) Hv Hn).
Defined.

(** While a chat request is in flight the input box is empty and a
    further [sendMessage] returns without a request. *)
Theorem single_flight (c : clock) (s : state) :
  reachable s -> loading s = true ->
  inputValue s = EmptyString /\ send_begin c s = None.
Proof.
  intros R L. destruct (proj2 (inv_reachable s R) L) as [_ I].
  split; [exact I|]. unfold send_begin. rewrite L, orb_true_r. reflexivity.
Qed.

Lemma single_flight_witness :
  reachable ChatClaims.busy_state /\ loading ChatClaims.busy_state = true /\
  inputValue ChatClaims.busy_state = EmptyString.
Proof.
  assert (R : reachable ChatClaims.busy_state).
  { eapply reach_step; [exact ChatClaims.typed_state_reachable|].
    eapply (StepSend ChatClaims.clk1). reflexivity. }
  assert (L : loading ChatClaims.busy_state = true) by reflexivity.
  split; [exact R|]. split; [exact L|].
  exact (proj1 (single_flight ChatClaims.clk1 _ R L)).
Defined.

(** Once a send from a reachable state has completed, no turn of the
    transcript is pending and the page is idle again. *)
Theorem no_pending_after_send (c : clock) (r : chat_reply) (s : state) :
  reachable s -> trim (inputValue s) <> EmptyString ->
  count_pending (messages (sendMessage c r s)) = 0%nat /\
  loading (sendMessage c r s) = false.
Proof.
  intros R Ht. pose proof (reachable_input_idle s R Ht) as L.
  rewrite (sendMessage_shape c r s L Ht). simpl.
  rewrite count_pending_app, (proj1 (inv_reachable s R) L).
  split; reflexivity.
Qed.

Lemma no_pending_after_send_witness :
  reachable ChatClaims.typed_state /\
  trim (inputValue ChatClaims.typed_state) <> EmptyString /\
  count_pending (messages (sendMessage ChatClaims.clk1 ChatNetworkFailure
                            ChatClaims.typed_state)) = 0%nat.
Proof.
  assert (Ht : trim (inputValue ChatClaims.typed_state) <> EmptyString)
    by discriminate.
  split; [exact ChatClaims.typed_state_reachable|]. split; [exact Ht|].
  exact (proj1 (no_pending_after_send ChatClaims.clk1 ChatNetworkFailure _
                  ChatClaims.typed_state_reachable Ht)).
Defined.

End Extras3.

Module Extras4.
Import Layout.
Local Open Scope string_scope.

(** For any route at most one navigation entry is highlighted, and one is
    exactly on [/] and [/summary]. *)
Theorem one_active_nav_item (pathname : string) :
  (length (active_items pathname) <= 1)%nat /\
  (length (active_items pathname) = 1%nat <->
   pathname = "/" \/ pathname = "/summary").
Proof.
  unfold active_items, navigation, isActive. simpl.
  destruct (String.eqb_spec pathname "/") as [->|N1]; simpl.
  - split; [lia|]. split; [intros _; left; reflexivity|reflexivity].
  - destruct (String.eqb_spec pathname "/summary") as [->|N2]; simpl.
    + split; [lia|]. split; [intros _; right; reflexivity|reflexivity].
    + split; [lia|]. split; [discriminate|intros [E|E]; contradiction].
Qed.

End Extras4.
